(** * accuradiolib: a shallow embedding of [src/accuradiolib/accuradiolib.py]

    The module scrapes the embedded [__PRELOADED_STATE__] JSON blob out of
    the accuradio.com home page, turns its [content.genres.brands] array into
    [Brand] records, fetches one channel listing per brand and wraps every
    channel entry in a [Channel] object.

    Modelling choices:
    - Python values produced by [json.loads] are the inductive [pyval];
      a [PDict] is an association list holding a Python dict (keys unique,
      as the decoder builds them; numbers are modelled as integers).
    - [json.loads] (Python's standard library, not code of this repository)
      and the HTTP transport behind [requests.get] are section variables:
      every statement below holds for any decoder and any web. The web
      answers a URL with the response body or with the exception
      [requests.get] raises for it, which the module never catches.
    - Computations run in a writer/error monad [M]: the list of observable
      events (GET requests issued, log records written) and either a raised
      exception or a result.
    - Generators are runs: the list of steps (events and yields, in the
      order they happen when the generator is pulled) and the exception that
      ends the run, if any. *)

From Stdlib Require Import String Ascii List ZArith Lia Bool.
From Stdlib Require Import Numbers.DecimalString.
Import ListNotations.
Set Warnings "-register-all".
Open Scope string_scope.

(** ** Python values *)

Inductive pyval : Type :=
| PNone
| PBool (b : bool)
| PInt (z : Z)
| PStr (s : string)
| PList (xs : list pyval)
| PDict (kvs : list (string * pyval)).

(** The exceptions the module raises or lets escape; [RequestsError name url]
    is the exception [requests.exceptions.<name>] (ConnectionError,
    ChunkedEncodingError, TooManyRedirects, ...) raised for [url]. *)
Inductive exn : Type :=
| MarkerNotFound (msg : string)
| InvalidData (data : string)
| AttributeError (type_name attr : string)
| TypeError (msg : string)
| JSONDecodeError (doc : string)
| RequestsError (name url : string).

(** Observable effects: HTTP requests and log records. *)
Inductive event : Type :=
| EvGet (url : string)
| EvLog (level msg : string).

(** ** A writer/error monad *)

Definition M (A : Type) : Type := list event * (exn + A).

Definition ret {A} (a : A) : M A := ([], inr a).
Definition raise {A} (e : exn) : M A := ([], inl e).
Definition emit (e : event) : M unit := ([e], inr tt).

Definition bind {A B} (m : M A) (k : A -> M B) : M B :=
  match m with
  | (t, inl e) => (t, inl e)
  | (t, inr a) => let (t', r) := k a in ((t ++ t')%list, r)
  end.

(** Lift a fallible pure Python operation. *)
Definition lift {A} (r : exn + A) : M A := ([], r).

Notation "x <- m ;; k" := (bind m (fun x => k))
  (at level 61, m at next level, right associativity).
Notation "m ;;; k" := (bind m (fun _ => k))
  (at level 61, right associativity).

(** ** Python built-ins used by the module *)

Definition type_name (o : pyval) : string :=
  match o with
  | PNone => "NoneType"
  | PBool _ => "bool"
  | PInt _ => "int"
  | PStr _ => "str"
  | PList _ => "list"
  | PDict _ => "dict"
  end.

Fixpoint dict_lookup (k : string) (kvs : list (string * pyval)) : option pyval :=
  match kvs with
  | [] => None
  | (k', v) :: r => if String.eqb k k' then Some v else dict_lookup k r
  end.

(** [o.get(k, default)]: only a dict has a [get] method. *)
Definition py_get (o : pyval) (k : string) (default : pyval) : exn + pyval :=
  match o with
  | PDict kvs =>
      inr (match dict_lookup k kvs with Some v => v | None => default end)
  | _ => inl (AttributeError (type_name o) "get")
  end.

Fixpoint chars (s : string) : list pyval :=
  match s with
  | EmptyString => []
  | String c r => PStr (String c EmptyString) :: chars r
  end.

(** [iter(o)]: lists yield their items, dicts their keys, strings their
    characters; everything else is not iterable. *)
Definition py_iter (o : pyval) : exn + list pyval :=
  match o with
  | PList xs => inr xs
  | PDict kvs => inr (map (fun kv => PStr (fst kv)) kvs)
  | PStr s => inr (chars s)
  | _ => inl (TypeError ("'" ++ type_name o ++ "' object is not iterable"))
  end.

(** [str.find(sub, start)]: the first index [>= start] where [sub] occurs,
    or [-1]; a negative [start] counts from the end of the text. *)
Definition py_find (text sub : string) (start : Z) : Z :=
  let len := Z.of_nat (String.length text) in
  let s := if (start <? 0)%Z then Z.max 0 (start + len) else start in
  match index (Z.to_nat s) sub text with
  | Some n => Z.of_nat n
  | None => (-1)%Z
  end.

(** [text[a:b]] with Python's index normalisation. *)
Definition py_slice_index (len i : Z) : nat :=
  Z.to_nat (Z.min len (if (i <? 0)%Z then Z.max 0 (i + len) else i)).

Definition py_slice (text : string) (a b : Z) : string :=
  let len := Z.of_nat (String.length text) in
  let a' := py_slice_index len a in
  let b' := py_slice_index len b in
  substring a' (b' - a') text.

(** [==] on decoded values: [True == 1], dicts compare as mappings. *)
Fixpoint py_eq (a b : pyval) : bool :=
  match a, b with
  | PNone, PNone => true
  | PBool x, PBool y => Bool.eqb x y
  | PBool x, PInt z => Z.eqb (Z.b2z x) z
  | PInt z, PBool x => Z.eqb z (Z.b2z x)
  | PInt x, PInt y => Z.eqb x y
  | PStr x, PStr y => String.eqb x y
  | PList xs, PList ys =>
      (fix go (xs ys : list pyval) : bool :=
         match xs, ys with
         | [], [] => true
         | x :: xs', y :: ys' => py_eq x y && go xs' ys'
         | _, _ => false
         end) xs ys
  | PDict xs, PDict ys =>
      Nat.eqb (List.length xs) (List.length ys) &&
      (fix go (xs : list (string * pyval)) : bool :=
         match xs with
         | [] => true
         | (k, v) :: r =>
             match dict_lookup k ys with
             | Some w => py_eq v w
             | None => false
             end && go r
         end) xs
  | _, _ => false
  end.

Definition Z_to_string (z : Z) : string := NilEmpty.string_of_int (Z.to_int z).

Fixpoint join (sep : string) (xs : list string) : string :=
  match xs with
  | [] => ""
  | [x] => x
  | x :: r => x ++ sep ++ join sep r
  end.

(** [repr(o)] (escapes inside string literals are not modelled). *)
Fixpoint py_repr (o : pyval) : string :=
  match o with
  | PNone => "None"
  | PBool true => "True"
  | PBool false => "False"
  | PInt z => Z_to_string z
  | PStr s => "'" ++ s ++ "'"
  | PList xs =>
      "[" ++ join ", " ((fix go (xs : list pyval) : list string :=
                          match xs with
                          | [] => []
                          | x :: r => py_repr x :: go r
                          end) xs) ++ "]"
  | PDict kvs =>
      "{" ++ join ", " ((fix go (kvs : list (string * pyval)) : list string :=
                           match kvs with
                           | [] => []
                           | (k, v) :: r => ("'" ++ k ++ "': " ++ py_repr v) :: go r
                           end) kvs) ++ "}"
  end.

(** [str(o)], as an f-string replacement field formats it. *)
Definition py_str (o : pyval) : string :=
  match o with
  | PStr s => s
  | _ => py_repr o
  end.

(** ** Generators *)

Inductive step (A : Type) : Type :=
| SEv (e : event)
| SYield (a : A).
Arguments SEv {A} e.
Arguments SYield {A} a.

(** A generator pulled to its end: its steps, and the exception that ended
    it ([None] when it returned normally). *)
Record gen (A : Type) : Type := Gen { steps : list (step A); stop : option exn }.
Arguments Gen {A} steps stop.
Arguments steps {A} g.
Arguments stop {A} g.

Definition gen_prepend {A} (pre : list (step A)) (g : gen A) : gen A :=
  Gen (pre ++ steps g) (stop g).

(** Run a computation, then continue as a generator. *)
Definition gen_bind {A B} (m : M A) (k : A -> gen B) : gen B :=
  match m with
  | (t, inl e) => Gen (map SEv t) (Some e)
  | (t, inr a) => gen_prepend (map SEv t) (k a)
  end.

(** Run [g]; if it returns normally, continue with [k]. *)
Definition gen_seq {A} (g : gen A) (k : gen A) : gen A :=
  match stop g with
  | Some e => g
  | None => gen_prepend (steps g) k
  end.

(** [for x in xs: <body>] over a list. *)
Fixpoint gen_for_list {A B} (xs : list A) (body : A -> gen B) : gen B :=
  match xs with
  | [] => Gen [] None
  | x :: r => gen_seq (body x) (gen_for_list r body)
  end.

(** [for x in g: <body>] over a generator: the inner generator is pulled
    lazily, so its events interleave with the body's. *)
Fixpoint gen_for_steps {A B} (st : list (step A)) (stp : option exn)
    (body : A -> gen B) : gen B :=
  match st with
  | [] => Gen [] stp
  | SEv e :: r => gen_prepend [SEv e] (gen_for_steps r stp body)
  | SYield a :: r => gen_seq (body a) (gen_for_steps r stp body)
  end.

Definition gen_for {A B} (g : gen A) (body : A -> gen B) : gen B :=
  gen_for_steps (steps g) (stop g) body.

(** ** The data classes *)

Module Service.
(** The attribute the channel objects read from their service. *)
Record t : Type := mk { url : string }.
(** [Service.__init__] *)
Definition init : t := mk "https://www.accuradio.com".
End Service.

Module Brand.
(** The [@dataclass] [Brand] (lines 59-69); field types are not enforced
    at run time, so every field holds an arbitrary value. *)
Record t : Type := mk {
  channels : pyval;
  _id : pyval;
  canonical_url : pyval;
  param : pyval;
  name : pyval }.

Definition fields : list string :=
  ["channels"; "_id"; "canonical_url"; "param"; "name"].

(** [Brand] called with [o] as keyword arguments: [o] must be a mapping, every key must name a field and
    every field must be given. *)
Definition make (o : pyval) : exn + t :=
  match o with
  | PDict kvs =>
      match List.find (fun kv => negb (existsb (String.eqb (fst kv)) fields)) kvs with
      | Some (k, _) =>
          inl (TypeError ("Brand.__init__() got an unexpected keyword argument '"
                          ++ k ++ "'"))
      | None =>
          match List.find (fun f => match dict_lookup f kvs with
                                    | Some _ => false
                                    | None => true
                                    end) fields with
          | Some f =>
              inl (TypeError ("Brand.__init__() missing required positional argument: '"
                              ++ f ++ "'"))
          | None =>
              let field f := match dict_lookup f kvs with Some v => v | None => PNone end in
              inr (mk (field "channels") (field "_id") (field "canonical_url")
                      (field "param") (field "name"))
          end
      end
  | _ => inl (TypeError ("Brand() argument after ** must be a mapping, not '"
                         ++ type_name o ++ "'"))
  end.

(** [Brand.oid] *)
Definition oid (b : t) : exn + pyval := py_get (_id b) "$oid" PNone.
End Brand.

Module Channel.
(** [Channel(service, data)] (lines 120-151). *)
Record t : Type := mk { service : Service.t; _data : pyval }.

(** [self._data.get('_id', {}).get('$oid')] *)
Definition id (c : t) : exn + pyval :=
  match py_get (_data c) "_id" (PDict []) with
  | inl e => inl e
  | inr i => py_get i "$oid" PNone
  end.

Definition name (c : t) : exn + pyval := py_get (_data c) "name" PNone.

Definition description (c : t) : exn + pyval := py_get (_data c) "description" PNone.

Definition logo (c : t) : pyval := PNone.
End Channel.

(** ** The module *)

Section Accuradio.

(** [json.loads]: [Some v] when the text decodes, [None] when it raises
    [ValueError] ([json.JSONDecodeError]). *)
Variable json_loads : string -> option pyval.

(** The web behind [requests.get]: the body served at a URL, or the
    exception [requests.get] raises for it. *)
Variable web : string -> exn + string.

(** [LOGGER.error(msg)] *)
Definition log_error (msg : string) : M unit := emit (EvLog "ERROR" msg).

(** [Service._parse_configuration_from_source] (lines 87-105). *)
Definition start_marker : string := "__PRELOADED_STATE__ =".
Definition end_marker : string := "}</script>".

Definition _parse_configuration_from_source (text : string) : M pyval :=
  let start := py_find text start_marker 0 in
  if (start =? -1)%Z then
    raise (MarkerNotFound ("Could not find starting marker " ++ start_marker
                           ++ " in text: " ++ text))
  else
  let start := (start + Z.of_nat (String.length start_marker))%Z in
  let end_ := py_find text end_marker start in
  if (end_ =? -1)%Z then
    raise (MarkerNotFound ("Could not find end marker " ++ end_marker
                           ++ " in text: " ++ text))
  else
  (* we add the last curly brace to fix the above matching. *)
  let data := py_slice text start end_ ++ "}" in
  match json_loads data with
  | Some v => ret v
  | None => log_error "Unable to parse data as json." ;;; raise (InvalidData data)
  end.

(** [requests.get(url).text]: the request is issued, then the web's
    exception, if any, propagates unchanged. *)
Definition requests_get (url : string) : M string :=
  emit (EvGet url) ;;; lift (web url).

(** [response.json()] *)
Definition response_json (body : string) : M pyval :=
  match json_loads body with
  | Some v => ret v
  | None => raise (JSONDecodeError body)
  end.

(** [Service._data] *)
Definition _data (self : Service.t) : M pyval :=
  text <- requests_get (Service.url self) ;;
  _parse_configuration_from_source text.

(** The loop header of [Service._brands]:
    [self._data.get('content').get('genres', {}).get('brands')], iterated. *)
Definition brand_entries (data : pyval) : M (list pyval) :=
  content <- lift (py_get data "content" PNone) ;;
  genres <- lift (py_get content "genres" (PDict [])) ;;
  brands <- lift (py_get genres "brands" PNone) ;;
  lift (py_iter brands).

(** The loop body of [Service._brands]: [yield Brand( **brand)]. *)
Definition yield_brand (brand : pyval) : gen Brand.t :=
  match Brand.make brand with
  | inl e => Gen [] (Some e)
  | inr b => Gen [SYield b] None
  end.

(** [Service._brands] *)
Definition _brands (self : Service.t) : gen Brand.t :=
  gen_bind (_data self) (fun data =>
  gen_bind (brand_entries data) (fun entries =>
  gen_for_list entries yield_brand)).

(** The body of the loop of [Service.channels] for one brand. *)
Definition brand_channels (self : Service.t) (brand : Brand.t) : gen Channel.t :=
  let url := Service.url self ++ "/c/m/json/genre/?param=" ++ py_str (Brand.param brand) in
  gen_bind (response <- requests_get url ;;
            j <- response_json response ;;
            chs <- lift (py_get j "channels" PNone) ;;
            lift (py_iter chs))
    (fun chs => Gen (map (fun channel => SYield (Channel.mk self channel)) chs) None).

(** [Service.channels] *)
Definition channels (self : Service.t) : gen Channel.t :=
  gen_for (_brands self) (brand_channels self).

(** [next((channel for channel in g if channel.id == channel_id), None)],
    pulling [g] one step at a time. *)
Fixpoint first_with_id (channel_id : pyval) (st : list (step Channel.t))
    (stp : option exn) : M (option Channel.t) :=
  match st with
  | [] => match stp with Some e => raise e | None => ret None end
  | SEv e :: r => emit e ;;; first_with_id channel_id r stp
  | SYield c :: r =>
      i <- lift (Channel.id c) ;;
      if py_eq i channel_id then ret (Some c) else first_with_id channel_id r stp
  end.

(** [Service.get_channel_by_id] *)
Definition get_channel_by_id (self : Service.t) (channel_id : pyval) : M (option Channel.t) :=
  let g := channels self in first_with_id channel_id (steps g) (stop g).

(** [Channel.media_uri] *)
Definition media_uri (c : Channel.t) : M pyval :=
  i <- lift (Channel.id c) ;;
  let url := Service.url (Channel.service c) ++ "/sweeper/json/fetch/?ucoid=" ++ py_str i in
  response <- requests_get url ;;
  j <- response_json response ;;
  creative <- lift (py_get j "creative" (PDict [])) ;;
  lift (py_get creative "audio" PNone).

End Accuradio.

(** ** Fixtures: the page and listings of the spec's examples *)

Definition fixture_page : string :=
  "<html><script>window.__PRELOADED_STATE__ = {}</script></html>".

Definition fixture_brand_entry : pyval :=
  PDict [("channels", PInt 5); ("_id", PDict [("$oid", PStr "abc")]);
         ("canonical_url", PStr "u"); ("param", PStr "p"); ("name", PStr "n")].

Definition fixture_state : pyval :=
  PDict [("content", PDict [("genres", PDict [("brands", PList [fixture_brand_entry])])])].

Definition fixture_channel_entry : pyval :=
  PDict [("_id", PDict [("$oid", PStr "1")]); ("name", PStr "A"); ("description", PStr "d")].

Definition fixture_genre : pyval := PDict [("channels", PList [fixture_channel_entry])].

(** A decoder stub that knows the two documents of the fixture. *)
Definition fixture_loads (s : string) : option pyval :=
  if String.eqb s " {}" then Some fixture_state
  else if String.eqb s "channels-of-p" then Some fixture_genre
  else None.

Definition fixture_web (u : string) : exn + string :=
  if String.eqb u "https://www.accuradio.com" then inr fixture_page
  else if String.eqb u "https://www.accuradio.com/c/m/json/genre/?param=p"
  then inr "channels-of-p"
  else inl (RequestsError "ConnectionError" u).

(** Decoders that read the fixture page as a state of another shape. *)
Definition state_loads (st : pyval) (s : string) : option pyval :=
  if String.eqb s " {}" then Some st else None.

Definition fixture_bad_brand_fields : list (string * pyval) :=
  [("channels", PInt 5); ("_id", PDict [("$oid", PStr "abc")]);
         ("canonical_url", PStr "u"); ("param", PStr "p"); ("name", PStr "n");
         ("extra", PInt 0)].

Definition fixture_brand : Brand.t :=
  Brand.mk (PInt 5) (PDict [("$oid", PStr "abc")]) (PStr "u") (PStr "p") (PStr "n").

(** The fixture with a channel listing that has no [channels] key. *)
Definition no_channels_loads (s : string) : option pyval :=
  if String.eqb s " {}" then Some fixture_state
  else if String.eqb s "channels-of-p" then Some (PDict [("count", PInt 0)])
  else None.

(** The fixture with a first channel whose [_id] is [null]. *)
Definition null_id_loads (s : string) : option pyval :=
  if String.eqb s " {}" then Some fixture_state
  else if String.eqb s "channels-of-p"
  then Some (PDict [("channels", PList [PDict [("_id", PNone)]; fixture_channel_entry])])
  else None.

(** The events of a generator run. *)
Definition step_events {A} (st : list (step A)) : list event :=
  flat_map (fun s => match s with SEv e => [e] | SYield _ => [] end) st.

(** Every channel yielded in [st] has an id, different from [cid]. *)
Definition no_match (cid : pyval) (st : list (step Channel.t)) : Prop :=
  forall c, In (SYield c) st -> exists i, Channel.id c = inr i /\ py_eq i cid = false.

(** The fixture extended with the ad endpoint of channel ["1"]. *)
Definition media_web (u : string) : exn + string :=
  if String.eqb u "https://www.accuradio.com/sweeper/json/fetch/?ucoid=1" then inr "ad-1"
  else fixture_web u.

Definition media_loads (s : string) : option pyval :=
  if String.eqb s "ad-1"
  then Some (PDict [("creative", PDict [("audio", PStr "https://a.example/ad.mp3")])])
  else fixture_loads s.

(** A web whose home page lost the embedded state. *)
Definition markerless_web (u : string) : exn + string := inr "<html></html>".

(** A web serving only the home page. *)
Definition home_only_web (u : string) : exn + string :=
  if String.eqb u "https://www.accuradio.com" then inr fixture_page
  else inl (RequestsError "ConnectionError" u).

(** ** String search *)

Lemma str_app_assoc (a b c : string) : (a ++ b) ++ c = a ++ b ++ c.
Proof. induction a as [|x a IH]; simpl; [reflexivity | now rewrite IH]. Qed.

Lemma str_length_app (a b : string) :
  String.length (a ++ b) = String.length a + String.length b.
Proof. induction a as [|x a IH]; simpl; [reflexivity | now rewrite IH]. Qed.

Lemma substring_app_l (a s : string) (m n : nat) :
  substring (String.length a + m) n (a ++ s) = substring m n s.
Proof. induction a as [|x a IH]; simpl; [reflexivity | exact IH]. Qed.

Lemma substring_prefix (p s : string) : substring 0 (String.length p) (p ++ s) = p.
Proof. induction p as [|x p IH]; simpl; [now destruct s | now rewrite IH]. Qed.

Lemma substring_prefix_inv (p s : string) :
  substring 0 (String.length p) s = p -> exists b, s = p ++ b.
Proof.
  revert s; induction p as [|x p IH]; intros s H.
  - now exists s.
  - destruct s as [|y s]; simpl in H; [discriminate|].
    injection H as -> H. destruct (IH s H) as [b ->]. now exists b.
Qed.

(** A window equal to a non-empty [p] is an occurrence of [p]. *)
Lemma substring_occ (p s : string) (m : nat) :
  p <> EmptyString ->
  substring m (String.length p) s = p ->
  exists a b, s = a ++ p ++ b /\ String.length a = m.
Proof.
  intros Hp. revert m; induction s as [|c s IH]; intros m H.
  - exfalso. apply Hp. rewrite <- H.
    destruct m, (String.length p); reflexivity.
  - destruct m as [|m].
    + destruct (substring_prefix_inv p _ H) as [b Hb].
      exists EmptyString, b. now split.
    + simpl in H. destruct (IH m H) as (a & b & -> & Ha).
      exists (String c a), b. simpl. now split; [|rewrite Ha].
Qed.

Lemma index_ge (n m : nat) (p s : string) : index n p s = Some m -> n <= m.
Proof.
  revert n m; induction s as [|c s IH]; intros n m H; simpl in H.
  - destruct n; [lia | discriminate].
  - destruct n as [|n]; [lia|].
    destruct (index n p s) as [k|] eqn:E; [|discriminate].
    injection H as <-. apply IH in E. lia.
Qed.

Lemma index_first (n m : nat) (p s : string) :
  p <> EmptyString -> n <= m ->
  substring m (String.length p) s = p ->
  (forall k, n <= k -> k < m -> substring k (String.length p) s <> p) ->
  index n p s = Some m.
Proof.
  intros Hp Hnm Hm Hbefore.
  destruct (index n p s) as [m'|] eqn:E.
  - f_equal. pose proof (index_ge _ _ _ _ E) as Hge.
    destruct (Nat.lt_trichotomy m m') as [Hlt|[Heq|Hgt]].
    + exfalso. exact (index_correct2 _ _ _ _ E m Hnm Hlt Hm).
    + now subst.
    + exfalso. exact (Hbefore m' Hge Hgt (index_correct1 _ _ _ _ E)).
  - exfalso. exact (index_correct3 _ m _ _ E Hp Hnm Hm).
Qed.

Lemma index_none (n : nat) (p s : string) :
  p <> EmptyString ->
  (forall k, n <= k -> substring k (String.length p) s <> p) ->
  index n p s = None.
Proof.
  intros Hp Hnone.
  destruct (index n p s) as [m|] eqn:E; [|reflexivity].
  exfalso. exact (Hnone m (index_ge _ _ _ _ E) (index_correct1 _ _ _ _ E)).
Qed.

(** Searching [u ++ s] from the end of [u] finds the first occurrence of
    [p] in [s]. *)
Lemma index_in_suffix (u s c d p : string) :
  p <> EmptyString ->
  s = c ++ p ++ d ->
  (forall a b, s = a ++ p ++ b -> String.length c <= String.length a) ->
  index (String.length u) p (u ++ s) = Some (String.length u + String.length c).
Proof.
  intros Hp Hs Hfirst. apply index_first; [exact Hp | lia | |].
  - rewrite substring_app_l, Hs, <- (Nat.add_0_r (String.length c)), substring_app_l.
    apply substring_prefix.
  - intros k Hk Hlt Hocc.
    replace k with (String.length u + (k - String.length u)) in Hocc by lia.
    rewrite substring_app_l in Hocc.
    destruct (substring_occ _ _ _ Hp Hocc) as (a & b & Hab & Ha).
    specialize (Hfirst a b Hab). lia.
Qed.

Lemma index_none_suffix (u s p : string) :
  p <> EmptyString ->
  (forall a b, s <> a ++ p ++ b) ->
  index (String.length u) p (u ++ s) = None.
Proof.
  intros Hp Hno. apply index_none; [exact Hp|].
  intros k Hk Hocc.
  replace k with (String.length u + (k - String.length u)) in Hocc by lia.
  rewrite substring_app_l in Hocc.
  destruct (substring_occ _ _ _ Hp Hocc) as (a & b & Hab & _).
  exact (Hno a b Hab).
Qed.

(** Computable criteria for the occurrence hypotheses. *)
Lemma first_occ_of_index (p s : string) (n : nat) :
  index 0 p s = Some n ->
  forall a b, s = a ++ p ++ b -> n <= String.length a.
Proof.
  intros E a b Hs.
  destruct (Nat.lt_ge_cases (String.length a) n) as [Hlt|Hge]; [exfalso|exact Hge].
  apply (index_correct2 _ _ _ _ E (String.length a) (Nat.le_0_l _) Hlt).
  rewrite Hs, <- (Nat.add_0_r (String.length a)), substring_app_l.
  apply substring_prefix.
Qed.

Lemma no_occ_of_index (p s : string) :
  p <> EmptyString -> index 0 p s = None ->
  forall a b, s <> a ++ p ++ b.
Proof.
  intros Hp E a b Hs.
  apply (index_correct3 _ (String.length a) _ _ E Hp (Nat.le_0_l _)).
  rewrite Hs, <- (Nat.add_0_r (String.length a)), substring_app_l.
  apply substring_prefix.
Qed.

(** ** The extractor *)

Section Extractor.

Variable json_loads : string -> option pyval.

Let parse := _parse_configuration_from_source json_loads.

Lemma start_marker_nonempty : start_marker <> EmptyString.
Proof. discriminate. Qed.

Lemma end_marker_nonempty : end_marker <> EmptyString.
Proof. discriminate. Qed.

Lemma py_find_from (text sub : string) (n : nat) :
  py_find text sub (Z.of_nat n) =
  match index n sub text with Some k => Z.of_nat k | None => (-1)%Z end.
Proof.
  unfold py_find. replace (Z.of_nat n <? 0)%Z with false by (symmetry; apply Z.ltb_ge; lia).
  now rewrite Nat2Z.id.
Qed.

Lemma py_slice_nat (text : string) (a b : nat) :
  a <= b -> b <= String.length text ->
  py_slice text (Z.of_nat a) (Z.of_nat b) = substring a (b - a) text.
Proof.
  intros Hab Hb. unfold py_slice, py_slice_index.
  replace (Z.of_nat a <? 0)%Z with false by (symmetry; apply Z.ltb_ge; lia).
  replace (Z.of_nat b <? 0)%Z with false by (symmetry; apply Z.ltb_ge; lia).
  rewrite !Z.min_r by lia. now rewrite !Nat2Z.id.
Qed.

(** Once the start marker is located at the end of [pre], the outcome of
    the extractor only depends on what follows it. *)
Lemma parse_start_found (pre rest : string) :
  (forall a b, pre ++ start_marker ++ rest = a ++ start_marker ++ b ->
               String.length pre <= String.length a) ->
  py_find (pre ++ start_marker ++ rest) start_marker 0 = Z.of_nat (String.length pre).
Proof.
  intros Hfirst.
  change 0%Z with (Z.of_nat (String.length EmptyString)).
  rewrite py_find_from.
  exact (f_equal (fun o => match o with Some k => Z.of_nat k | None => (-1)%Z end)
    (index_in_suffix EmptyString (pre ++ start_marker ++ rest) pre rest start_marker
       start_marker_nonempty eq_refl Hfirst)).
Qed.

Lemma parse_found (pre content post : string) :
  (forall a b, pre ++ start_marker ++ content ++ end_marker ++ post = a ++ start_marker ++ b ->
               String.length pre <= String.length a) ->
  (forall a b, content ++ end_marker ++ post = a ++ end_marker ++ b ->
               String.length content <= String.length a) ->
  parse (pre ++ start_marker ++ content ++ end_marker ++ post) =
  match json_loads (content ++ "}") with
  | Some v => ([], inr v)
  | None => ([EvLog "ERROR" "Unable to parse data as json."], inl (InvalidData (content ++ "}")))
  end.
Proof.
  intros Hstart Hend.
  unfold parse, _parse_configuration_from_source.
  rewrite (parse_start_found pre _ Hstart).
  replace (Z.of_nat (String.length pre) =? -1)%Z with false by (symmetry; apply Z.eqb_neq; lia).
  rewrite <- Nat2Z.inj_add.
  assert (Htext : pre ++ start_marker ++ content ++ end_marker ++ post
                  = (pre ++ start_marker) ++ content ++ end_marker ++ post)
    by now rewrite str_app_assoc.
  assert (Hlen : String.length (pre ++ start_marker) = String.length pre + String.length start_marker)
    by apply str_length_app.
  rewrite py_find_from, Htext, <- Hlen.
  rewrite (index_in_suffix (pre ++ start_marker) (content ++ end_marker ++ post) content post
             end_marker end_marker_nonempty eq_refl Hend).
  replace (Z.of_nat (String.length (pre ++ start_marker) + String.length content) =? -1)%Z
    with false by (symmetry; apply Z.eqb_neq; lia).
  rewrite py_slice_nat.
  2: lia.
  2: rewrite !str_length_app; lia.
  replace (String.length (pre ++ start_marker) + String.length content - String.length (pre ++ start_marker))
    with (String.length content) by lia.
  rewrite <- (Nat.add_0_r (String.length (pre ++ start_marker))), substring_app_l, substring_prefix.
  destruct (json_loads (content ++ "}")); reflexivity.
Qed.

(** C1: when the text holds the start marker, then (at its first occurrence
    and after it, the first occurrence of) the end marker, with [content]
    between them, and [content ++ "}"] decodes to [v], the extractor succeeds
    silently and returns [v]. *)
Theorem parse_configuration_decodes (pre content post : string) (v : pyval) :
  (forall a b, pre ++ start_marker ++ content ++ end_marker ++ post = a ++ start_marker ++ b ->
               String.length pre <= String.length a) ->
  (forall a b, content ++ end_marker ++ post = a ++ end_marker ++ b ->
               String.length content <= String.length a) ->
  json_loads (content ++ "}") = Some v ->
  _parse_configuration_from_source json_loads
    (pre ++ start_marker ++ content ++ end_marker ++ post) = ([], inr v).
Proof.
  intros Hstart Hend Hv.
  pose proof (parse_found pre content post Hstart Hend) as H.
  unfold parse in H. rewrite Hv in H. exact H.
Qed.

(** C2: without the start marker the extractor raises [MarkerNotFound]
    naming the start marker and quoting the text; with the start marker but
    no end marker after it, it raises [MarkerNotFound] naming the end marker
    and quoting the text. Nothing is logged. *)
Theorem parse_configuration_marker_not_found :
  (forall text, (forall a b, text <> a ++ start_marker ++ b) ->
     _parse_configuration_from_source json_loads text =
     ([], inl (MarkerNotFound ("Could not find starting marker " ++ start_marker
                               ++ " in text: " ++ text)))) /\
  (forall pre rest,
     (forall a b, pre ++ start_marker ++ rest = a ++ start_marker ++ b ->
                  String.length pre <= String.length a) ->
     (forall a b, rest <> a ++ end_marker ++ b) ->
     _parse_configuration_from_source json_loads (pre ++ start_marker ++ rest) =
     ([], inl (MarkerNotFound ("Could not find end marker " ++ end_marker
                               ++ " in text: " ++ pre ++ start_marker ++ rest)))).
Proof.
  split.
  - intros text Hno. unfold _parse_configuration_from_source.
    change 0%Z with (Z.of_nat (String.length EmptyString)).
    rewrite py_find_from.
    change text with (EmptyString ++ text) at 1.
    rewrite (index_none_suffix EmptyString text start_marker start_marker_nonempty Hno).
    reflexivity.
  - intros pre rest Hstart Hno. unfold _parse_configuration_from_source.
    rewrite (parse_start_found pre rest Hstart).
    replace (Z.of_nat (String.length pre) =? -1)%Z with false by (symmetry; apply Z.eqb_neq; lia).
    rewrite <- Nat2Z.inj_add, py_find_from.
    rewrite <- str_length_app, <- str_app_assoc.
    rewrite (index_none_suffix (pre ++ start_marker) rest end_marker end_marker_nonempty Hno).
    now rewrite str_app_assoc.
Qed.

(** C3: when both markers are found but [content ++ "}"] does not decode,
    the extractor logs an error and then raises [InvalidData] carrying
    [content ++ "}"]. *)
Theorem parse_configuration_invalid_data (pre content post : string) :
  (forall a b, pre ++ start_marker ++ content ++ end_marker ++ post = a ++ start_marker ++ b ->
               String.length pre <= String.length a) ->
  (forall a b, content ++ end_marker ++ post = a ++ end_marker ++ b ->
               String.length content <= String.length a) ->
  json_loads (content ++ "}") = None ->
  _parse_configuration_from_source json_loads
    (pre ++ start_marker ++ content ++ end_marker ++ post) =
  ([EvLog "ERROR" "Unable to parse data as json."], inl (InvalidData (content ++ "}"))).
Proof.
  intros Hstart Hend Hv.
  pose proof (parse_found pre content post Hstart Hend) as H.
  unfold parse in H. rewrite Hv in H. exact H.
Qed.

End Extractor.

(** ** Generators *)

Lemma gen_prepend_app {A} (a b : list (step A)) (g : gen A) :
  gen_prepend a (gen_prepend b g) = gen_prepend (a ++ b) g.
Proof. unfold gen_prepend; simpl. now rewrite app_assoc. Qed.

Lemma gen_prepend_nil {A} (g : gen A) : gen_prepend [] g = g.
Proof. now destruct g. Qed.

Lemma gen_for_steps_events {A B} (t : list event) (st : list (step A)) stp (body : A -> gen B) :
  gen_for_steps (map SEv t ++ st) stp body = gen_prepend (map SEv t) (gen_for_steps st stp body).
Proof.
  induction t as [|e t IH]; simpl.
  - now rewrite gen_prepend_nil.
  - now rewrite IH, gen_prepend_app.
Qed.

Lemma gen_for_steps_yields {A B} (xs : list A) (st : list (step A)) stp (body : A -> gen B) :
  (forall x, In x xs -> stop (body x) = None) ->
  gen_for_steps (map SYield xs ++ st) stp body =
  gen_prepend (flat_map (fun x => steps (body x)) xs) (gen_for_steps st stp body).
Proof.
  induction xs as [|x xs IH]; intros Hok; simpl.
  - now rewrite gen_prepend_nil.
  - unfold gen_seq. rewrite (Hok x (or_introl eq_refl)).
    rewrite IH by (intros y Hy; apply Hok; now right).
    now rewrite gen_prepend_app.
Qed.

Lemma gen_for_steps_yield_fail {A B} (x : A) (st : list (step A)) stp (body : A -> gen B) e :
  stop (body x) = Some e -> gen_for_steps (SYield x :: st) stp body = body x.
Proof. intros H. simpl. unfold gen_seq. now rewrite H. Qed.

(** ** Brands *)

(** The state holds [content.genres.brands] as the array [es]. *)
Definition state_brands (data : pyval) (es : list pyval) : Prop :=
  exists s c g,
    data = PDict s /\
    dict_lookup "content" s = Some (PDict c) /\
    dict_lookup "genres" c = Some (PDict g) /\
    dict_lookup "brands" g = Some (PList es).

Lemma brand_entries_state (data : pyval) (es : list pyval) :
  state_brands data es -> brand_entries data = ([], inr es).
Proof.
  intros (s & c & g & -> & Hc & Hg & Hb).
  unfold brand_entries, bind, lift, py_get. now rewrite Hc, Hg, Hb.
Qed.

Lemma yield_brands_ok (es : list pyval) (bs : list Brand.t) (rest : list pyval) :
  Forall2 (fun e b => Brand.make e = inr b) es bs ->
  gen_for_list (es ++ rest) yield_brand = gen_prepend (map SYield bs) (gen_for_list rest yield_brand).
Proof.
  induction 1 as [|e b es bs Hmk _ IH]; simpl.
  - now rewrite gen_prepend_nil.
  - assert (Hy : yield_brand e = Gen [SYield b] None)
      by (unfold yield_brand; now rewrite Hmk).
    unfold gen_seq. rewrite Hy. simpl. rewrite IH. now rewrite gen_prepend_app.
Qed.

Section Brands.

Variable json_loads : string -> option pyval.
Variable web : string -> exn + string.

Lemma brands_after_data (svc : Service.t) (t : list event) (data : pyval) :
  _data json_loads web svc = (t, inr data) ->
  _brands json_loads web svc =
  gen_prepend (map SEv t) (gen_bind (brand_entries data) (fun entries =>
                              gen_for_list entries yield_brand)).
Proof. intros H. unfold _brands. now rewrite H. Qed.

Lemma brand_make_bad_fields (kvs : list (string * pyval)) :
  (exists k v, In (k, v) kvs /\ ~ In k ["channels"; "_id"; "canonical_url"; "param"; "name"]) \/
  (exists f, In f ["channels"; "_id"; "canonical_url"; "param"; "name"] /\ dict_lookup f kvs = None) ->
  exists msg, Brand.make (PDict kvs) = inl (TypeError msg).
Proof.
  intros Hbad. unfold Brand.make.
  destruct (List.find _ kvs) as [[k v]|] eqn:Eextra; [eexists; reflexivity|].
  destruct (List.find _ Brand.fields) as [f|] eqn:Emiss; [eexists; reflexivity|].
  exfalso. destruct Hbad as [(k & v & Hin & Hnot)|(f & Hin & Hnone)].
  - pose proof (find_none _ _ Eextra (k, v) Hin) as H.
    change (negb (existsb (String.eqb k) Brand.fields) = false) in H.
    apply negb_false_iff, existsb_exists in H. destruct H as (k' & Hk' & Heq).
    apply String.eqb_eq in Heq. subst k'. exact (Hnot Hk').
  - pose proof (find_none _ _ Emiss f Hin) as H. simpl in H.
    now rewrite Hnone in H.
Qed.

(** C5: an entry of [content.genres.brands] with a key that is not a field
    of [Brand], or without one of its fields, makes [_brands] raise
    [TypeError] right after the brands of the entries before it: the entry
    is not skipped. *)
Theorem brand_construction_fails (svc : Service.t) (t : list event) (data : pyval)
    (es1 : list pyval) (bs : list Brand.t) (kvs : list (string * pyval)) (es2 : list pyval) :
  _data json_loads web svc = (t, inr data) ->
  state_brands data (es1 ++ PDict kvs :: es2) ->
  Forall2 (fun e b => Brand.make e = inr b) es1 bs ->
  (exists k v, In (k, v) kvs /\ ~ In k ["channels"; "_id"; "canonical_url"; "param"; "name"]) \/
  (exists f, In f ["channels"; "_id"; "canonical_url"; "param"; "name"] /\ dict_lookup f kvs = None) ->
  exists msg, _brands json_loads web svc = Gen (map SEv t ++ map SYield bs) (Some (TypeError msg)).
Proof.
  intros Hd Hs Hok Hbad.
  destruct (brand_make_bad_fields kvs Hbad) as [msg Hmk].
  exists msg.
  rewrite (brands_after_data svc t _ Hd), (brand_entries_state _ _ Hs).
  simpl. rewrite gen_prepend_nil, (yield_brands_ok _ _ _ Hok). simpl.
  unfold gen_seq, yield_brand. rewrite Hmk. simpl.
  unfold gen_prepend. simpl. now rewrite !app_nil_r.
Qed.

(** C6: a state whose [content.genres.brands] is the single entry of the
    spec's example gives exactly one brand, whose [oid] is ["abc"]; in
    general [oid] is the ["$oid"] entry of the brand's [_id] mapping, [None]
    when it has none. *)
Theorem brands_single_entry_oid :
  (forall svc t data,
     _data json_loads web svc = (t, inr data) ->
     state_brands data [PDict [("channels", PInt 5); ("_id", PDict [("$oid", PStr "abc")]);
                               ("canonical_url", PStr "u"); ("param", PStr "p");
                               ("name", PStr "n")]] ->
     exists b, _brands json_loads web svc = Gen (map SEv t ++ [SYield b]) None /\
               Brand.oid b = inr (PStr "abc")) /\
  (forall b kvs, Brand._id b = PDict kvs ->
     Brand.oid b = inr (match dict_lookup "$oid" kvs with Some v => v | None => PNone end)).
Proof.
  split.
  - intros svc t data Hd Hs.
    eexists. split.
    + rewrite (brands_after_data svc t _ Hd), (brand_entries_state _ _ Hs).
      simpl. unfold gen_prepend. simpl. reflexivity.
    + reflexivity.
  - intros b kvs H. unfold Brand.oid, py_get. now rewrite H.
Qed.

End Brands.

(** ** Channels *)

Lemma flat_map_ext_in {A B} (f g : A -> list B) (xs : list A) :
  (forall x, In x xs -> f x = g x) -> flat_map f xs = flat_map g xs.
Proof.
  induction xs as [|x xs IH]; intros H; simpl; [reflexivity|].
  rewrite (H x (or_introl eq_refl)), IH; [reflexivity|].
  intros y Hy. apply H. now right.
Qed.

Section Channels.

Variable json_loads : string -> option pyval.
Variable web : string -> exn + string.

Lemma brand_channels_ok (svc : Service.t) (b : Brand.t) (body : string)
    (d : list (string * pyval)) (l : list pyval) :
  web (Service.url svc ++ "/c/m/json/genre/?param=" ++ py_str (Brand.param b)) = inr body ->
  json_loads body = Some (PDict d) ->
  dict_lookup "channels" d = Some (PList l) ->
  brand_channels json_loads web svc b =
  Gen (SEv (EvGet (Service.url svc ++ "/c/m/json/genre/?param=" ++ py_str (Brand.param b)))
       :: map (fun c => SYield (Channel.mk svc c)) l) None.
Proof.
  intros Hw Hj Hl.
  unfold brand_channels, requests_get, response_json, bind, emit, ret, lift, py_get, py_iter.
  rewrite Hw, Hj, Hl. reflexivity.
Qed.

Lemma brand_channels_no_key (svc : Service.t) (b : Brand.t) (body : string)
    (d : list (string * pyval)) :
  web (Service.url svc ++ "/c/m/json/genre/?param=" ++ py_str (Brand.param b)) = inr body ->
  json_loads body = Some (PDict d) ->
  dict_lookup "channels" d = None ->
  brand_channels json_loads web svc b =
  Gen [SEv (EvGet (Service.url svc ++ "/c/m/json/genre/?param=" ++ py_str (Brand.param b)))]
      (Some (TypeError "'NoneType' object is not iterable")).
Proof.
  intros Hw Hj Hl.
  unfold brand_channels, requests_get, response_json, bind, emit, ret, lift, py_get, py_iter.
  rewrite Hw, Hj, Hl. reflexivity.
Qed.

Lemma channels_prefix_ok (svc : Service.t) (t : list event) (bs : list Brand.t)
    (st : list (step Brand.t)) (stp : option exn) (lf : Brand.t -> list pyval) :
  _brands json_loads web svc = Gen (map SEv t ++ map SYield bs ++ st) stp ->
  (forall b, In b bs -> exists body d,
     web (Service.url svc ++ "/c/m/json/genre/?param=" ++ py_str (Brand.param b)) = inr body /\
     json_loads body = Some (PDict d) /\
     dict_lookup "channels" d = Some (PList (lf b))) ->
  channels json_loads web svc =
  gen_prepend (map SEv t ++
    flat_map (fun b => SEv (EvGet (Service.url svc ++ "/c/m/json/genre/?param=" ++ py_str (Brand.param b)))
                       :: map (fun c => SYield (Channel.mk svc c)) (lf b)) bs)
    (gen_for_steps st stp (brand_channels json_loads web svc)).
Proof.
  intros Hb Hok. unfold channels, gen_for. rewrite Hb. simpl.
  rewrite gen_for_steps_events, gen_for_steps_yields.
  - rewrite gen_prepend_app. f_equal. f_equal.
    apply flat_map_ext_in. intros b Hin.
    destruct (Hok b Hin) as (body & d & Hw & Hj & Hl).
    now rewrite (brand_channels_ok svc b body d (lf b) Hw Hj Hl).
  - intros b Hin. destruct (Hok b Hin) as (body & d & Hw & Hj & Hl).
    now rewrite (brand_channels_ok svc b body d (lf b) Hw Hj Hl).
Qed.

(** C7: for each brand [channels] requests
    [<base>/c/m/json/genre/?param=<brand.param>] and yields one [Channel] per
    entry of the [channels] array of the decoded answer; with the spec's
    example answer for the brand of param ["p"] it yields exactly one
    channel, whose id is ["1"], name ["A"] and logo [None]. *)
Theorem channels_one_per_entry :
  (forall svc t bs (lf : Brand.t -> list pyval),
     _brands json_loads web svc = Gen (map SEv t ++ map SYield bs) None ->
     (forall b, In b bs -> exists body d,
        web (Service.url svc ++ "/c/m/json/genre/?param=" ++ py_str (Brand.param b)) = inr body /\
        json_loads body = Some (PDict d) /\
        dict_lookup "channels" d = Some (PList (lf b))) ->
     channels json_loads web svc =
     Gen (map SEv t ++
          flat_map (fun b => SEv (EvGet (Service.url svc ++ "/c/m/json/genre/?param="
                                         ++ py_str (Brand.param b)))
                             :: map (fun c => SYield (Channel.mk svc c)) (lf b)) bs) None) /\
  (forall svc t b body,
     _brands json_loads web svc = Gen (map SEv t ++ [SYield b]) None ->
     Brand.param b = PStr "p" ->
     web (Service.url svc ++ "/c/m/json/genre/?param=p") = inr body ->
     json_loads body =
       Some (PDict [("channels", PList [PDict [("_id", PDict [("$oid", PStr "1")]);
                                               ("name", PStr "A");
                                               ("description", PStr "d")]])]) ->
     exists c,
       channels json_loads web svc =
       Gen (map SEv t ++ [SEv (EvGet (Service.url svc ++ "/c/m/json/genre/?param=p")); SYield c])
           None /\
       Channel.id c = inr (PStr "1") /\ Channel.name c = inr (PStr "A") /\
       Channel.logo c = PNone).
Proof.
  split.
  - intros svc t bs lf Hb Hok.
    rewrite <- (app_nil_r (map SYield bs)) in Hb.
    rewrite (channels_prefix_ok svc t bs [] None lf Hb Hok).
    unfold gen_prepend. simpl. now rewrite app_nil_r.
  - intros svc t b body Hb Hp Hw Hj.
    exists (Channel.mk svc (PDict [("_id", PDict [("$oid", PStr "1")]); ("name", PStr "A");
                                   ("description", PStr "d")])).
    split; [|repeat split; reflexivity].
    rewrite <- (app_nil_r [SYield b]) in Hb.
    change [SYield b] with (map (@SYield Brand.t) [b]) in Hb.
    rewrite (channels_prefix_ok svc t [b] [] None
               (fun _ => [PDict [("_id", PDict [("$oid", PStr "1")]); ("name", PStr "A");
                                 ("description", PStr "d")]]) Hb).
    + unfold gen_prepend. simpl. rewrite Hp. simpl. now rewrite app_nil_r.
    + intros b' [<-|[]]. rewrite Hp. simpl. do 2 eexists. split; [exact Hw|]. split; [exact Hj|].
      reflexivity.
Qed.

(** C10: when the decoded answer for a brand has no [channels] key,
    pulling [channels] up to that brand raises [TypeError] (iterating
    [None]) right after its request: the brand is not read as having no
    channels. *)
Theorem channels_missing_key_raises (svc : Service.t) (t : list event) (bs : list Brand.t)
    (b : Brand.t) (st : list (step Brand.t)) (stp : option exn) (lf : Brand.t -> list pyval)
    (body : string) (d : list (string * pyval)) :
  _brands json_loads web svc = Gen (map SEv t ++ map SYield bs ++ SYield b :: st) stp ->
  (forall b', In b' bs -> exists body' d',
     web (Service.url svc ++ "/c/m/json/genre/?param=" ++ py_str (Brand.param b')) = inr body' /\
     json_loads body' = Some (PDict d') /\
     dict_lookup "channels" d' = Some (PList (lf b'))) ->
  web (Service.url svc ++ "/c/m/json/genre/?param=" ++ py_str (Brand.param b)) = inr body ->
  json_loads body = Some (PDict d) ->
  dict_lookup "channels" d = None ->
  channels json_loads web svc =
  Gen (map SEv t ++
       flat_map (fun b' => SEv (EvGet (Service.url svc ++ "/c/m/json/genre/?param="
                                       ++ py_str (Brand.param b')))
                           :: map (fun c => SYield (Channel.mk svc c)) (lf b')) bs ++
       [SEv (EvGet (Service.url svc ++ "/c/m/json/genre/?param=" ++ py_str (Brand.param b)))])
      (Some (TypeError "'NoneType' object is not iterable")).
Proof.
  intros Hb Hok Hw Hj Hl.
  rewrite (channels_prefix_ok svc t bs _ stp lf Hb Hok).
  pose proof (brand_channels_no_key svc b body d Hw Hj Hl) as Hbc.
  rewrite (gen_for_steps_yield_fail b st stp _ _ (f_equal (@stop Channel.t) Hbc)), Hbc.
  unfold gen_prepend. simpl. now rewrite app_assoc.
Qed.

End Channels.

(** ** Looking a channel up *)

Lemma first_with_id_app (cid : pyval) (pre st : list (step Channel.t)) (stp : option exn) :
  no_match cid pre ->
  first_with_id cid (pre ++ st) stp =
  let (t, r) := first_with_id cid st stp in ((step_events pre ++ t)%list, r).
Proof.
  induction pre as [|[e|c] pre IH]; intros Hno; simpl.
  - now destruct (first_with_id cid st stp).
  - rewrite IH by (intros c Hc; apply Hno; now right).
    destruct (first_with_id cid st stp). reflexivity.
  - destruct (Hno c (or_introl eq_refl)) as (i & Hi & Hneq).
    unfold bind, lift. rewrite Hi, Hneq.
    rewrite IH by (intros c' Hc; apply Hno; now right).
    destruct (first_with_id cid st stp). reflexivity.
Qed.

(** Every step list splits at the first yielded channel whose id raises or
    equals [cid]. *)
Lemma steps_split_first (cid : pyval) (st : list (step Channel.t)) :
  exists pre rest, st = (pre ++ rest)%list /\ no_match cid pre /\
    (rest = [] \/
     exists c rest', rest = SYield c :: rest' /\
       ((exists e, Channel.id c = inl e) \/
        (exists i, Channel.id c = inr i /\ py_eq i cid = true))).
Proof.
  induction st as [|[e|c] st IH].
  - exists [], []. split; [reflexivity|]. split; [intros c []|now left].
  - destruct IH as (pre & rest & -> & Hno & Hr).
    exists (SEv e :: pre), rest. split; [reflexivity|]. split; [|exact Hr].
    intros c [Hc|Hc]; [discriminate|now apply Hno].
  - destruct (Channel.id c) as [e|i] eqn:Hi.
    + exists [], (SYield c :: st). split; [reflexivity|]. split; [intros c' []|].
      right. exists c, st. split; [reflexivity|]. left. now exists e.
    + destruct (py_eq i cid) eqn:Heq.
      * exists [], (SYield c :: st). split; [reflexivity|]. split; [intros c' []|].
        right. exists c, st. split; [reflexivity|]. right. now exists i.
      * destruct IH as (pre & rest & -> & Hno & Hr).
        exists (SYield c :: pre), rest. split; [reflexivity|]. split; [|exact Hr].
        intros c' [Hc|Hc]; [|now apply Hno].
        injection Hc as <-. now exists i.
Qed.

Section Lookup.

Variable json_loads : string -> option pyval.
Variable web : string -> exn + string.

(** C8 (as amended): [get_channel_by_id] pulls [channels] lazily. It
    returns the first channel whose id equals the given one when the
    channels before it have ids (different ones) and the sequence raised
    nothing before it; an exception raised by an id before a match, or by
    the sequence itself, propagates; [None] comes back only when the whole
    sequence ends normally with no match. The events are those of the part
    of the sequence that was pulled. *)
Theorem get_channel_by_id_scan (svc : Service.t) (cid : pyval) :
  (forall pre c rest i,
     steps (channels json_loads web svc) = (pre ++ SYield c :: rest)%list ->
     no_match cid pre -> Channel.id c = inr i -> py_eq i cid = true ->
     get_channel_by_id json_loads web svc cid = (step_events pre, inr (Some c))) /\
  (forall pre c rest e,
     steps (channels json_loads web svc) = (pre ++ SYield c :: rest)%list ->
     no_match cid pre -> Channel.id c = inl e ->
     get_channel_by_id json_loads web svc cid = (step_events pre, inl e)) /\
  (no_match cid (steps (channels json_loads web svc)) ->
     get_channel_by_id json_loads web svc cid =
     (step_events (steps (channels json_loads web svc)),
      match stop (channels json_loads web svc) with Some e => inl e | None => inr None end)).
Proof.
  unfold get_channel_by_id. repeat split.
  - intros pre c rest i Hst Hno Hi Heq. rewrite Hst, first_with_id_app by exact Hno.
    simpl. unfold bind, lift. rewrite Hi, Heq. simpl. now rewrite app_nil_r.
  - intros pre c rest e Hst Hno He. rewrite Hst, first_with_id_app by exact Hno.
    simpl. unfold bind, lift. rewrite He. simpl. now rewrite app_nil_r.
  - intros Hno.
    rewrite <- (app_nil_r (steps (channels json_loads web svc))) at 1.
    rewrite first_with_id_app by exact Hno.
    destruct (stop (channels json_loads web svc)); simpl; now rewrite app_nil_r.
Qed.

End Lookup.

(** C9 (as amended): over a raw entry mapping, [name] and [description]
    return the field, or [None] when it is missing, and never fail; [id]
    returns the ["$oid"] of the [_id] mapping, or [None] when [_id] or
    ["$oid"] is missing, and raises [AttributeError] when [_id] is present
    but not a mapping. *)
Theorem channel_accessors (svc : Service.t) (kvs : list (string * pyval)) :
  Channel.name (Channel.mk svc (PDict kvs)) =
    inr (match dict_lookup "name" kvs with Some v => v | None => PNone end) /\
  Channel.description (Channel.mk svc (PDict kvs)) =
    inr (match dict_lookup "description" kvs with Some v => v | None => PNone end) /\
  (dict_lookup "_id" kvs = None -> Channel.id (Channel.mk svc (PDict kvs)) = inr PNone) /\
  (forall d, dict_lookup "_id" kvs = Some (PDict d) ->
     Channel.id (Channel.mk svc (PDict kvs)) =
     inr (match dict_lookup "$oid" d with Some v => v | None => PNone end)) /\
  (forall v, dict_lookup "_id" kvs = Some v -> (forall d, v <> PDict d) ->
     Channel.id (Channel.mk svc (PDict kvs)) = inl (AttributeError (type_name v) "get")).
Proof.
  unfold Channel.name, Channel.description, Channel.id, py_get; simpl.
  repeat split.
  - intros H. now rewrite H.
  - intros d H. now rewrite H.
  - intros v H Hnd. rewrite H.
    destruct v; try reflexivity. exfalso. exact (Hnd kvs0 eq_refl).
Qed.

(** ** Witnesses *)

Lemma parse_configuration_decodes_witness :
  _parse_configuration_from_source fixture_loads fixture_page = ([], inr fixture_state).
Proof.
  apply (parse_configuration_decodes fixture_loads "<html><script>window." " {" "</html>").
  - apply first_occ_of_index. reflexivity.
  - apply first_occ_of_index. reflexivity.
  - reflexivity.
Defined.

Lemma parse_configuration_marker_not_found_witness :
  _parse_configuration_from_source fixture_loads "abc" =
  ([], inl (MarkerNotFound "Could not find starting marker __PRELOADED_STATE__ = in text: abc")) /\
  _parse_configuration_from_source fixture_loads "x__PRELOADED_STATE__ = {}" =
  ([], inl (MarkerNotFound "Could not find end marker }</script> in text: x__PRELOADED_STATE__ = {}")).
Proof.
  split.
  - apply (proj1 (parse_configuration_marker_not_found fixture_loads) "abc").
    apply no_occ_of_index; [exact start_marker_nonempty | reflexivity].
  - apply (proj2 (parse_configuration_marker_not_found fixture_loads) "x" " {}").
    + apply first_occ_of_index. reflexivity.
    + apply no_occ_of_index; [exact end_marker_nonempty | reflexivity].
Defined.

Lemma parse_configuration_invalid_data_witness :
  _parse_configuration_from_source fixture_loads "__PRELOADED_STATE__ = xx}</script>" =
  ([EvLog "ERROR" "Unable to parse data as json."], inl (InvalidData " xx}")).
Proof.
  apply (parse_configuration_invalid_data fixture_loads "" " xx" "").
  - apply first_occ_of_index. reflexivity.
  - apply first_occ_of_index. reflexivity.
  - reflexivity.
Defined.

(** C4: a state whose [content] has no [genres] makes [_brands] raise
    [TypeError] instead of yielding the empty sequence: the [{}] default
    of [genres] has no [brands], and [.get('brands')] has no default. *)
Lemma brands_missing_genres_counterexample :
  _brands (state_loads (PDict [("content", PDict [])])) fixture_web Service.init =
  Gen [SEv (EvGet "https://www.accuradio.com")]
      (Some (TypeError "'NoneType' object is not iterable")).
Proof. vm_compute. reflexivity. Qed.

Lemma brand_construction_fails_witness :
  exists msg,
    _brands (state_loads (PDict [("content", PDict [("genres", PDict [("brands",
               PList [PDict fixture_bad_brand_fields])])])])) fixture_web Service.init =
    Gen [SEv (EvGet "https://www.accuradio.com")] (Some (TypeError msg)).
Proof.
  apply (brand_construction_fails _ fixture_web Service.init [EvGet "https://www.accuradio.com"]
           (PDict [("content", PDict [("genres", PDict [("brands",
               PList [PDict fixture_bad_brand_fields])])])]) [] [] fixture_bad_brand_fields []).
  - reflexivity.
  - do 3 eexists. repeat split; reflexivity.
  - constructor.
  - left. exists "extra", (PInt 0). split.
    + unfold fixture_bad_brand_fields. simpl. tauto.
    + simpl. intuition congruence.
Defined.

Lemma brands_single_entry_oid_witness :
  exists b, _brands fixture_loads fixture_web Service.init =
            Gen [SEv (EvGet "https://www.accuradio.com"); SYield b] None /\
            Brand.oid b = inr (PStr "abc").
Proof.
  apply (proj1 (brands_single_entry_oid fixture_loads fixture_web) Service.init
           [EvGet "https://www.accuradio.com"] fixture_state).
  - reflexivity.
  - do 3 eexists. repeat split; reflexivity.
Defined.

Lemma channels_one_per_entry_witness :
  channels fixture_loads fixture_web Service.init =
  Gen [SEv (EvGet "https://www.accuradio.com");
       SEv (EvGet "https://www.accuradio.com/c/m/json/genre/?param=p");
       SYield (Channel.mk Service.init fixture_channel_entry)] None /\
  exists c,
    channels fixture_loads fixture_web Service.init =
    Gen [SEv (EvGet "https://www.accuradio.com");
         SEv (EvGet "https://www.accuradio.com/c/m/json/genre/?param=p"); SYield c] None /\
    Channel.id c = inr (PStr "1") /\ Channel.name c = inr (PStr "A") /\ Channel.logo c = PNone.
Proof.
  split.
  - exact (proj1 (channels_one_per_entry fixture_loads fixture_web) Service.init
             [EvGet "https://www.accuradio.com"] [fixture_brand]
             (fun _ => [fixture_channel_entry]) eq_refl
             (fun b Hin => match Hin with
                           | or_introl H =>
                               eq_ind fixture_brand
                                 (fun b => exists body d,
                                    fixture_web (Service.url Service.init ++ "/c/m/json/genre/?param="
                                                 ++ py_str (Brand.param b)) = inr body /\
                                    fixture_loads body = Some (PDict d) /\
                                    dict_lookup "channels" d = Some (PList [fixture_channel_entry]))
                                 (ex_intro _ "channels-of-p"
                                    (ex_intro _ [("channels", PList [fixture_channel_entry])]
                                       (conj eq_refl (conj eq_refl eq_refl)))) b H
                           | or_intror H => False_ind _ H
                           end)).
  - exact (proj2 (channels_one_per_entry fixture_loads fixture_web) Service.init
             [EvGet "https://www.accuradio.com"] fixture_brand "channels-of-p"
             eq_refl eq_refl eq_refl eq_refl).
Defined.

Lemma channels_missing_key_raises_witness :
  channels no_channels_loads fixture_web Service.init =
  Gen [SEv (EvGet "https://www.accuradio.com");
       SEv (EvGet "https://www.accuradio.com/c/m/json/genre/?param=p")]
      (Some (TypeError "'NoneType' object is not iterable")).
Proof.
  exact (channels_missing_key_raises no_channels_loads fixture_web Service.init
           [EvGet "https://www.accuradio.com"] [] fixture_brand [] None (fun _ => [])
           "channels-of-p" [("count", PInt 0)]
           eq_refl (fun b Hin => False_ind _ Hin) eq_refl eq_refl eq_refl).
Defined.

Lemma get_channel_by_id_scan_witness :
  get_channel_by_id fixture_loads fixture_web Service.init (PStr "1") =
  ([EvGet "https://www.accuradio.com"; EvGet "https://www.accuradio.com/c/m/json/genre/?param=p"],
   inr (Some (Channel.mk Service.init fixture_channel_entry))) /\
  get_channel_by_id fixture_loads fixture_web Service.init (PStr "missing") =
  ([EvGet "https://www.accuradio.com"; EvGet "https://www.accuradio.com/c/m/json/genre/?param=p"],
   inr None).
Proof.
  split.
  - apply (proj1 (get_channel_by_id_scan fixture_loads fixture_web Service.init (PStr "1"))
             [SEv (EvGet "https://www.accuradio.com");
              SEv (EvGet "https://www.accuradio.com/c/m/json/genre/?param=p")]
             (Channel.mk Service.init fixture_channel_entry) [] (PStr "1")).
    + reflexivity.
    + intros c Hc. simpl in Hc. intuition discriminate.
    + reflexivity.
    + reflexivity.
  - apply (proj2 (proj2 (get_channel_by_id_scan fixture_loads fixture_web Service.init
                           (PStr "missing")))).
    intros c Hc. simpl in Hc. destruct Hc as [H|[H|[H|[]]]]; try discriminate.
    injection H as <-. exists (PStr "1"). split; reflexivity.
Defined.

(** C8 fails: a channel whose id is ["1"] is in the sequence, but the
    channel before it has [_id] [null], so the lookup raises. *)
Lemma get_channel_by_id_null_id_counterexample :
  In (SYield (Channel.mk Service.init fixture_channel_entry))
     (steps (channels null_id_loads fixture_web Service.init)) /\
  Channel.id (Channel.mk Service.init fixture_channel_entry) = inr (PStr "1") /\
  snd (get_channel_by_id null_id_loads fixture_web Service.init (PStr "1")) =
  inl (AttributeError "NoneType" "get").
Proof.
  split; [|split; reflexivity].
  vm_compute. right. right. right. left. reflexivity.
Qed.

Lemma channel_accessors_witness :
  Channel.id (Channel.mk Service.init (PDict [("_id", PStr "1")])) =
  inl (AttributeError "str" "get").
Proof.
  apply (proj2 (proj2 (proj2 (proj2 (channel_accessors Service.init [("_id", PStr "1")]))))
           (PStr "1") eq_refl).
  intros d H. discriminate.
Defined.

(** C9 fails: a channel whose [_id] is [null] has an [id] that raises. *)
Lemma channel_id_null_counterexample :
  Channel.id (Channel.mk Service.init (PDict [("_id", PNone)])) =
  inl (AttributeError "NoneType" "get").
Proof. reflexivity. Qed.

(** ** Further properties of the module *)

Lemma step_events_app {A} (a b : list (step A)) :
  step_events (a ++ b) = (step_events a ++ step_events b)%list.
Proof. unfold step_events. now rewrite flat_map_app. Qed.

Lemma step_events_map_SEv {A} (t : list event) : step_events (map (@SEv A) t) = t.
Proof. induction t as [|e t IH]; simpl; [reflexivity | now rewrite IH]. Qed.

Lemma step_events_yield_brands (es : list pyval) :
  step_events (steps (gen_for_list es yield_brand)) = [].
Proof.
  induction es as [|e es IH]; simpl; [reflexivity|].
  unfold gen_seq, yield_brand. destruct (Brand.make e); simpl; [reflexivity|].
  exact IH.
Qed.

Section Coverage.

Variable json_loads : string -> option pyval.
Variable web : string -> exn + string.

(** The extractor issues no request and logs only when it raises
    [InvalidData], whose payload always ends with the appended brace. *)
Theorem parse_logs_only_invalid_data (text : string) :
  (fst (_parse_configuration_from_source json_loads text) = [] /\
   forall d, snd (_parse_configuration_from_source json_loads text) <> inl (InvalidData d)) \/
  (exists d, _parse_configuration_from_source json_loads text =
             ([EvLog "ERROR" "Unable to parse data as json."], inl (InvalidData (d ++ "}")))).
Proof.
  unfold _parse_configuration_from_source.
  destruct (py_find text start_marker 0 =? -1)%Z.
  - left. split; [reflexivity | intros d; discriminate].
  - destruct (py_find text end_marker _ =? -1)%Z.
    + left. split; [reflexivity | intros d; discriminate].
    + destruct (json_loads _).
      * left. split; [reflexivity | intros d; discriminate].
      * right. eexists. reflexivity.
Qed.

(** Text after the first end marker does not affect the extractor. *)
Theorem parse_ignores_trailing_text (pre content post1 post2 : string) :
  (forall a b, pre ++ start_marker ++ content ++ end_marker ++ post1 = a ++ start_marker ++ b ->
               String.length pre <= String.length a) ->
  (forall a b, pre ++ start_marker ++ content ++ end_marker ++ post2 = a ++ start_marker ++ b ->
               String.length pre <= String.length a) ->
  (forall a b, content ++ end_marker ++ post1 = a ++ end_marker ++ b ->
               String.length content <= String.length a) ->
  (forall a b, content ++ end_marker ++ post2 = a ++ end_marker ++ b ->
               String.length content <= String.length a) ->
  _parse_configuration_from_source json_loads (pre ++ start_marker ++ content ++ end_marker ++ post1) =
  _parse_configuration_from_source json_loads (pre ++ start_marker ++ content ++ end_marker ++ post2).
Proof.
  intros Hs1 Hs2 He1 He2.
  rewrite (parse_found json_loads pre content post1 Hs1 He1),
          (parse_found json_loads pre content post2 Hs2 He2).
  reflexivity.
Qed.

(** [_data] requests the service's home page once and hands its body to the
    extractor. *)
Lemma data_fetch_parse (svc : Service.t) :
  _data json_loads web svc =
  match web (Service.url svc) with
  | inl e => ([EvGet (Service.url svc)], inl e)
  | inr text =>
      let (t, r) := _parse_configuration_from_source json_loads text in
      (EvGet (Service.url svc) :: t, r)
  end.
Proof.
  unfold _data, requests_get, bind, emit, lift.
  destruct (web (Service.url svc)); simpl; [reflexivity|].
  now destruct (_parse_configuration_from_source json_loads s).
Qed.

(** When fetching or extracting the state fails, [_brands] and [channels]
    yield nothing and raise that exception, and [get_channel_by_id] raises
    it too, after the same events. *)
Theorem data_error_propagates (svc : Service.t) (t : list event) (e : exn) (cid : pyval) :
  _data json_loads web svc = (t, inl e) ->
  _brands json_loads web svc = Gen (map SEv t) (Some e) /\
  channels json_loads web svc = Gen (map SEv t) (Some e) /\
  get_channel_by_id json_loads web svc cid = (t, inl e).
Proof.
  intros Hd.
  assert (Hb : _brands json_loads web svc = Gen (map SEv t) (Some e))
    by (unfold _brands; now rewrite Hd).
  assert (Hc : channels json_loads web svc = Gen (map SEv t) (Some e)).
  { unfold channels, gen_for. rewrite Hb. simpl.
    rewrite <- (app_nil_r (map SEv t)), gen_for_steps_events. simpl.
    unfold gen_prepend. simpl. now rewrite app_nil_r. }
  repeat split; [exact Hb | exact Hc|].
  unfold get_channel_by_id. rewrite Hc. simpl.
  rewrite <- (app_nil_r (map SEv t)), first_with_id_app.
  - simpl. now rewrite app_nil_r, step_events_map_SEv.
  - intros c Hin. exfalso. apply in_map_iff in Hin. now destruct Hin as (x & H & _).
Qed.

(** [_brands] issues exactly one request, for the home page; the only
    other event is the extractor's log record. *)
Theorem brands_single_request (svc : Service.t) :
  exists log,
    step_events (steps (_brands json_loads web svc)) = EvGet (Service.url svc) :: log /\
    (log = [] \/ log = [EvLog "ERROR" "Unable to parse data as json."]).
Proof.
  unfold _brands. rewrite data_fetch_parse.
  destruct (web (Service.url svc)) as [err|text]; simpl; [exists []; split; [reflexivity | now left]|].
  - destruct (parse_logs_only_invalid_data text) as [[Ht _]|[d Hd]].
    + destruct (_parse_configuration_from_source json_loads text) as [t [err|data]] eqn:E;
        simpl in Ht; subst t; simpl; exists [].
      * split; [reflexivity | now left].
      * unfold gen_prepend. simpl. unfold brand_entries, bind, lift.
        destruct (py_get data "content" PNone) as [|content]; simpl;
          [split; [reflexivity | now left]|].
        destruct (py_get content "genres" (PDict [])) as [|genres]; simpl;
          [split; [reflexivity | now left]|].
        destruct (py_get genres "brands" PNone) as [|brands]; simpl;
          [split; [reflexivity | now left]|].
        destruct (py_iter brands) as [|es]; simpl; [split; [reflexivity | now left]|].
        unfold gen_prepend. simpl. rewrite step_events_yield_brands.
        split; [reflexivity | now left].
    + rewrite Hd. simpl. eexists. split; [reflexivity | now right].
Qed.

(** [get_channel_by_id] pulls [channels] up to the first channel whose id
    raises or equals the one sought, and no further: the steps before it
    yield only channels with other ids, the lookup's events are exactly
    theirs, and it answers the match, the id's exception, or (the sequence
    exhausted) [None] or the sequence's own exception. *)
Theorem get_channel_by_id_stops_at_first (svc : Service.t) (cid : pyval) :
  exists pre rest,
    steps (channels json_loads web svc) = (pre ++ rest)%list /\ no_match cid pre /\
    ((rest = [] /\
      get_channel_by_id json_loads web svc cid =
      (step_events pre,
       match stop (channels json_loads web svc) with
       | Some e => inl e
       | None => inr None
       end)) \/
     (exists c rest' e, rest = SYield c :: rest' /\ Channel.id c = inl e /\
        get_channel_by_id json_loads web svc cid = (step_events pre, inl e)) \/
     (exists c rest' i, rest = SYield c :: rest' /\ Channel.id c = inr i /\
        py_eq i cid = true /\
        get_channel_by_id json_loads web svc cid = (step_events pre, inr (Some c)))).
Proof.
  unfold get_channel_by_id.
  destruct (channels json_loads web svc) as [st stp]; simpl.
  destruct (steps_split_first cid st) as (pre & rest & -> & Hno & Hr).
  exists pre, rest. split; [reflexivity|]. split; [exact Hno|].
  rewrite first_with_id_app by exact Hno.
  destruct Hr as [->|(c & rest' & -> & [[e He]|(i & Hi & Heq)])].
  - left. split; [reflexivity|]. simpl.
    destruct stp; simpl; now rewrite app_nil_r.
  - right; left. exists c, rest', e. split; [reflexivity|]. split; [exact He|].
    simpl. unfold bind, lift. rewrite He. simpl. now rewrite app_nil_r.
  - right; right. exists c, rest', i. split; [reflexivity|]. split; [exact Hi|].
    split; [exact Heq|].
    simpl. unfold bind, lift. rewrite Hi, Heq. simpl. now rewrite app_nil_r.
Qed.

(** [media_uri] computes the channel's id first (raising, with no request,
    when it fails), requests [<base>/sweeper/json/fetch/?ucoid=<id>] once
    (["None"] standing for a missing id) and returns [creative.audio] of
    the answer: [None] when [creative] or [audio] is missing, and
    [AttributeError] when [creative] is present but not a mapping. *)
Theorem media_uri_reads_creative_audio (c : Channel.t) :
  (forall e, Channel.id c = inl e -> media_uri json_loads web c = ([], inl e)) /\
  (forall i body d,
     Channel.id c = inr i ->
     web (Service.url (Channel.service c) ++ "/sweeper/json/fetch/?ucoid=" ++ py_str i) = inr body ->
     json_loads body = Some (PDict d) ->
     media_uri json_loads web c =
     ([EvGet (Service.url (Channel.service c) ++ "/sweeper/json/fetch/?ucoid=" ++ py_str i)],
      match dict_lookup "creative" d with
      | None => inr PNone
      | Some (PDict cr) => inr (match dict_lookup "audio" cr with Some v => v | None => PNone end)
      | Some v => inl (AttributeError (type_name v) "get")
      end)).
Proof.
  split.
  - intros e He. unfold media_uri, bind, lift. now rewrite He.
  - intros i body d Hi Hw Hj.
    unfold media_uri, requests_get, response_json, bind, emit, lift, ret, raise.
    rewrite Hi. cbv beta iota zeta. rewrite Hw. cbv beta iota zeta. rewrite Hj.
    cbv beta iota zeta. unfold py_get at 1.
    destruct (dict_lookup "creative" d) as [v|]; [|reflexivity].
    destruct v; reflexivity.
Qed.

Lemma channels_stop_at (svc : Service.t) (t : list event) (bs : list Brand.t) (b : Brand.t)
    (st : list (step Brand.t)) (stp : option exn) (lf : Brand.t -> list pyval) (ev : event) (e : exn) :
  _brands json_loads web svc = Gen (map SEv t ++ map SYield bs ++ SYield b :: st) stp ->
  (forall b', In b' bs -> exists body' d',
     web (Service.url svc ++ "/c/m/json/genre/?param=" ++ py_str (Brand.param b')) = inr body' /\
     json_loads body' = Some (PDict d') /\
     dict_lookup "channels" d' = Some (PList (lf b'))) ->
  brand_channels json_loads web svc b = Gen [SEv ev] (Some e) ->
  channels json_loads web svc =
  Gen (map SEv t ++
       flat_map (fun b' => SEv (EvGet (Service.url svc ++ "/c/m/json/genre/?param="
                                       ++ py_str (Brand.param b')))
                           :: map (fun c => SYield (Channel.mk svc c)) (lf b')) bs ++ [SEv ev])
      (Some e).
Proof.
  intros Hb Hok Hbc.
  rewrite (channels_prefix_ok json_loads web svc t bs _ stp lf Hb Hok).
  rewrite (gen_for_steps_yield_fail b st stp _ _ (f_equal (@stop Channel.t) Hbc)), Hbc.
  unfold gen_prepend. simpl. now rewrite app_assoc.
Qed.

(** A failing listing request stops [channels] at its brand with the
    unwrapped error: whatever [requests.get] raised, the decoding error of
    a body that is not JSON, or [AttributeError] when the decoded answer is
    not a mapping. The channels of the brands before it have been yielded. *)
Theorem channels_request_errors (svc : Service.t) (t : list event) (bs : list Brand.t)
    (b : Brand.t) (st : list (step Brand.t)) (stp : option exn) (lf : Brand.t -> list pyval) :
  _brands json_loads web svc = Gen (map SEv t ++ map SYield bs ++ SYield b :: st) stp ->
  (forall b', In b' bs -> exists body' d',
     web (Service.url svc ++ "/c/m/json/genre/?param=" ++ py_str (Brand.param b')) = inr body' /\
     json_loads body' = Some (PDict d') /\
     dict_lookup "channels" d' = Some (PList (lf b'))) ->
  let url := Service.url svc ++ "/c/m/json/genre/?param=" ++ py_str (Brand.param b) in
  let prefix := (map SEv t ++
       flat_map (fun b' => SEv (EvGet (Service.url svc ++ "/c/m/json/genre/?param="
                                       ++ py_str (Brand.param b')))
                           :: map (fun c => SYield (Channel.mk svc c)) (lf b')) bs)%list in
  (forall e, web url = inl e ->
     channels json_loads web svc = Gen (prefix ++ [SEv (EvGet url)]) (Some e)) /\
  (forall body, web url = inr body -> json_loads body = None ->
     channels json_loads web svc = Gen (prefix ++ [SEv (EvGet url)]) (Some (JSONDecodeError body))) /\
  (forall body v, web url = inr body -> json_loads body = Some v -> (forall d, v <> PDict d) ->
     channels json_loads web svc =
     Gen (prefix ++ [SEv (EvGet url)]) (Some (AttributeError (type_name v) "get"))).
Proof.
  intros Hb Hok url prefix. unfold prefix. rewrite <- !app_assoc.
  repeat split.
  - intros e Hw. apply (channels_stop_at svc t bs b st stp lf _ _ Hb Hok).
    unfold brand_channels, requests_get, bind, emit, lift. fold url. now rewrite Hw.
  - intros body Hw Hj. apply (channels_stop_at svc t bs b st stp lf _ _ Hb Hok).
    unfold brand_channels, requests_get, response_json, bind, emit, lift. fold url.
    rewrite Hw. simpl. now rewrite Hj.
  - intros body v Hw Hj Hnd. apply (channels_stop_at svc t bs b st stp lf _ _ Hb Hok).
    unfold brand_channels, requests_get, response_json, bind, emit, lift. fold url.
    rewrite Hw. simpl. rewrite Hj. simpl.
    destruct v; try reflexivity. exfalso. exact (Hnd kvs eq_refl).
Qed.

End Coverage.

(** [Brand( **brand)] succeeds on a mapping whose keys are all fields of
    [Brand] and which gives every field; each field then holds the value
    given for it. *)
Theorem brand_make_ok (kvs : list (string * pyval)) :
  (forall k v, In (k, v) kvs -> In k ["channels"; "_id"; "canonical_url"; "param"; "name"]) ->
  (forall f, In f ["channels"; "_id"; "canonical_url"; "param"; "name"] -> dict_lookup f kvs <> None) ->
  exists b, Brand.make (PDict kvs) = inr b /\
    Some (Brand.channels b) = dict_lookup "channels" kvs /\
    Some (Brand._id b) = dict_lookup "_id" kvs /\
    Some (Brand.canonical_url b) = dict_lookup "canonical_url" kvs /\
    Some (Brand.param b) = dict_lookup "param" kvs /\
    Some (Brand.name b) = dict_lookup "name" kvs.
Proof.
  intros Hkeys Hfields. unfold Brand.make.
  destruct (List.find _ kvs) as [[k v]|] eqn:Eextra.
  - exfalso. apply find_some in Eextra. destruct Eextra as [Hin Hf].
    change (negb (existsb (String.eqb k) Brand.fields) = true) in Hf.
    apply negb_true_iff in Hf.
    assert (Hex : existsb (String.eqb k) Brand.fields = true).
    { apply existsb_exists. exists k. split; [exact (Hkeys k v Hin) | apply String.eqb_refl]. }
    congruence.
  - destruct (List.find _ Brand.fields) as [f|] eqn:Emiss.
    + exfalso. apply find_some in Emiss. destruct Emiss as [Hin Hf].
      specialize (Hfields f Hin).
      destruct (dict_lookup f kvs); [discriminate | exact (Hfields eq_refl)].
    + eexists. split; [reflexivity|]. simpl.
      repeat split;
        [ destruct (dict_lookup "channels" kvs) eqn:E; [reflexivity | exfalso; apply (Hfields "channels"); simpl; tauto]
        | destruct (dict_lookup "_id" kvs) eqn:E; [reflexivity | exfalso; apply (Hfields "_id"); simpl; tauto]
        | destruct (dict_lookup "canonical_url" kvs) eqn:E; [reflexivity | exfalso; apply (Hfields "canonical_url"); simpl; tauto]
        | destruct (dict_lookup "param" kvs) eqn:E; [reflexivity | exfalso; apply (Hfields "param"); simpl; tauto]
        | destruct (dict_lookup "name" kvs) eqn:E; [reflexivity | exfalso; apply (Hfields "name"); simpl; tauto] ].
Qed.

Lemma parse_ignores_trailing_text_witness :
  _parse_configuration_from_source fixture_loads fixture_page =
  _parse_configuration_from_source fixture_loads
    "<html><script>window.__PRELOADED_STATE__ = {}</script><p>}</script></p>".
Proof.
  apply (parse_ignores_trailing_text fixture_loads "<html><script>window." " {" "</html>"
           "<p>}</script></p>");
    apply first_occ_of_index; reflexivity.
Defined.

Lemma data_error_propagates_witness :
  channels fixture_loads markerless_web Service.init =
  Gen [SEv (EvGet "https://www.accuradio.com")]
      (Some (MarkerNotFound "Could not find starting marker __PRELOADED_STATE__ = in text: <html></html>")).
Proof.
  exact (proj1 (proj2 (data_error_propagates fixture_loads markerless_web Service.init
                         [EvGet "https://www.accuradio.com"] _ (PStr "1") eq_refl))).
Defined.

Lemma media_uri_reads_creative_audio_witness :
  media_uri media_loads media_web (Channel.mk Service.init fixture_channel_entry) =
  ([EvGet "https://www.accuradio.com/sweeper/json/fetch/?ucoid=1"],
   inr (PStr "https://a.example/ad.mp3")).
Proof.
  exact (proj2 (media_uri_reads_creative_audio media_loads media_web
                  (Channel.mk Service.init fixture_channel_entry))
           (PStr "1") "ad-1" [("creative", PDict [("audio", PStr "https://a.example/ad.mp3")])]
           eq_refl eq_refl eq_refl).
Defined.

Lemma channels_request_errors_witness :
  channels fixture_loads home_only_web Service.init =
  Gen [SEv (EvGet "https://www.accuradio.com");
       SEv (EvGet "https://www.accuradio.com/c/m/json/genre/?param=p")]
      (Some (RequestsError "ConnectionError" "https://www.accuradio.com/c/m/json/genre/?param=p")).
Proof.
  exact (proj1 (channels_request_errors fixture_loads home_only_web Service.init
                  [EvGet "https://www.accuradio.com"] [] fixture_brand [] None (fun _ => [])
                  eq_refl (fun b Hin => False_ind _ Hin)) _ eq_refl).
Defined.

Lemma brand_make_ok_witness :
  exists b, Brand.make fixture_brand_entry = inr b /\
    Some (Brand.channels b) = Some (PInt 5) /\
    Some (Brand._id b) = Some (PDict [("$oid", PStr "abc")]) /\
    Some (Brand.canonical_url b) = Some (PStr "u") /\
    Some (Brand.param b) = Some (PStr "p") /\
    Some (Brand.name b) = Some (PStr "n").
Proof.
  apply (brand_make_ok [("channels", PInt 5); ("_id", PDict [("$oid", PStr "abc")]);
                        ("canonical_url", PStr "u"); ("param", PStr "p"); ("name", PStr "n")]).
  - intros k v Hin. simpl in Hin. simpl.
    repeat destruct Hin as [Hin|Hin]; try (injection Hin as <- _; tauto); contradiction.
  - intros f Hf. simpl in Hf.
    repeat destruct Hf as [Hf|Hf]; try (subst f; discriminate); contradiction.
Defined.
